(** * comfyui-claude: the node adapter layer

    A shallow embedding of [nodes/nodes.py] and [__init__.py].

    - Python [str] values are Rocq [string]s holding the UTF-8 encoding of
      the text.  Concatenation of [str]s is concatenation of encodings, and
      the byte [0x0A] occurs in an encoding only as the line feed.
    - A class body is the ordered list of its assignments; evaluating it in
      the module namespace gives the class namespace.
    - [execute] methods run in a small monad [Py] that threads the
      interpreter state, stops at the first exception and records every
      call made to the helpers of [nodes/ai.py]. *)

From Stdlib Require Import Ascii.
From stdpp Require Import base option list gmap strings.

Set Default Proof Using "Type".

(** ** Strings and f-strings *)

Module PyStr.

(** The character written [\n] in a Python literal. *)
Definition LF : ascii := Ascii false true false true false false false false.
Definition nl : string := String LF EmptyString.

(** The pieces of an f-string: literal text, or a replacement field
    [{v}] whose value [v] is a [str] (formatted with the empty format
    specification, which gives [v] back). *)
Inductive piece : Type :=
| Text (s : string)
| Field (v : string).

Definition render (p : piece) : string :=
  match p with
  | Text s => s
  | Field v => v
  end.

Fixpoint fstring (ps : list piece) : string :=
  match ps with
  | [] => ""
  | p :: ps' => render p +:+ fstring ps'
  end.

(** [s.endswith('\n')] *)
Fixpoint ends_with_newline (s : string) : bool :=
  match s with
  | EmptyString => false
  | String c EmptyString => bool_decide (c = LF)
  | String _ s' => ends_with_newline s'
  end.

(** [c in s] for a one-character [c]. *)
Fixpoint has_char (c : ascii) (s : string) : bool :=
  match s with
  | EmptyString => false
  | String a s' => bool_decide (a = c) || has_char c s'
  end.

End PyStr.
Import PyStr.

(** ** Module-level constants of [nodes/nodes.py] *)

Definition DESCRIBE_IMAGE_PROMPT : string := "Describe this image in detail.".

(** The literal is split over two source lines by a backslash-newline,
    which contributes no character. *)
Definition COMBINE_TEXTS_PROMPT : string :=
  "Combine the following two texts into one coherent " +:+
  "prompt without redundancies.".

(** ** Class bodies *)

(** Expressions that occur as keyword arguments. *)
Inductive expr : Type :=
| EStr (s : string)
| EBool (b : bool)
| EName (x : string).

Inductive value : Type :=
| VStr (s : string)
| VBool (b : bool)
| VList (l : list string).

(** The constructors imported from [comfyui_types]. *)
Inductive ctor : Type :=
| ChoiceInput
| ImageInput
| StringInput
| StringOutput.

(** Right-hand sides of the assignments of a class body. *)
Inductive rhs : Type :=
| RStr (s : string)
| RNew (c : ctor) (kwargs : list (string * expr)).

Inductive attr : Type :=
| AStr (s : string)
| ANew (c : ctor) (kwargs : list (string * value)).

#[global] Instance value_eq_dec : EqDecision value.
Proof. solve_decision. Defined.
#[global] Instance ctor_eq_dec : EqDecision ctor.
Proof. solve_decision. Defined.
#[global] Instance attr_eq_dec : EqDecision attr.
Proof. solve_decision. Defined.

Inductive node_class : Type :=
| DescribeImage
| CombineTexts
| TransformText
| ClassifyImage.

#[global] Instance node_class_eq_dec : EqDecision node_class.
Proof. solve_decision. Defined.

(** The literal written inline as the [default] of
    [ClassifyImage.classification_prompt]. *)
Definition CLASSIFICATION_PROMPT_DEFAULT : string :=
  "You are a visual classification model. I will provide you with a full-body fashion image containing one or more garments. Your task is to analyze the entire image and classify each distinct visible garment using **only** the following predefined list of classes: dress, jacket, jumpsuit, sweatshirt, coat, cardigan, skort, bikini, leggings, underwear, swimsuit, bodysuit, vest, poncho, saree, kurta, sweater, sleepwear, tank-top, shirt, pants, shorts, thshirt, skirt, topwear, jeans, tshirt, blazer, bra ### Instructions: - Identify the **most prominent garments** visible in the image - Select the **best-fitting label** from the list above for each garment - **MAXIMUM TWO CLASSES ONLY** - return at most 2 garment classifications - If there is only one visible garment, return just the **single class name** - If there are multiple garments, return **only the two most prominent ones** in a **comma-separated format** (e.g., `shirt, pants`) - **Only** use the class names from the list above. Do **not** create new categories or output any additional text - Your output must be **clean and machine-readable**, as it will be passed directly to another model (Moondream) for bounding box extraction ### Output format: - One garment → `tshirt` - Two garments → `tshirt, jeans` - **NEVER return more than two classes** Again, **do not include explanations, descriptions, confidence scores, or formatting**—just the class name(s) as a single plain string with maximum two classes.".

Definition class_body (c : node_class) : list (string * rhs) :=
  match c with
  | DescribeImage =>
      [ ("category", RStr "Claude");
        ("image", RNew ImageInput []);
        ("model", RNew ChoiceInput [("choices", EName "models")]);
        ("api_key", RNew StringInput []);
        ("system_prompt",
          RNew StringInput [("required", EBool false); ("multiline", EBool true)]);
        ("prompt",
          RNew StringInput [("required", EBool false); ("multiline", EBool true);
                            ("default", EName "DESCRIBE_IMAGE_PROMPT")]);
        ("description", RNew StringOutput []) ]
  | CombineTexts =>
      [ ("category", RStr "Claude");
        ("text_1", RNew StringInput [("multiline", EBool true)]);
        ("text_1_prefix", RNew StringInput [("default", EStr "1")]);
        ("text_2", RNew StringInput [("multiline", EBool true)]);
        ("text_2_prefix", RNew StringInput [("default", EStr "2")]);
        ("model", RNew ChoiceInput [("choices", EName "models")]);
        ("api_key", RNew StringInput []);
        ("system_prompt",
          RNew StringInput [("required", EBool false); ("multiline", EBool true)]);
        ("prompt",
          RNew StringInput [("required", EBool false); ("multiline", EBool true);
                            ("default", EName "DESCRIBE_IMAGE_PROMPT")]);
        ("combined_texts", RNew StringOutput []) ]
  | TransformText =>
      [ ("category", RStr "Claude");
        ("text", RNew StringInput [("multiline", EBool true)]);
        ("model", RNew ChoiceInput [("choices", EName "models")]);
        ("api_key", RNew StringInput []);
        ("system_prompt",
          RNew StringInput [("required", EBool false); ("multiline", EBool true)]);
        ("prompt",
          RNew StringInput [("required", EBool false); ("multiline", EBool true);
                            ("default", EName "DESCRIBE_IMAGE_PROMPT")]);
        ("transformed_text", RNew StringOutput []) ]
  | ClassifyImage =>
      [ ("category", RStr "Claude");
        ("image", RNew ImageInput []);
        ("classification_prompt",
          RNew StringInput [("multiline", EBool true);
                            ("default", EStr CLASSIFICATION_PROMPT_DEFAULT)]);
        ("model",
          RNew ChoiceInput [("choices", EName "models");
                            ("default", EStr "claude-3-7-sonnet-20250219")]);
        ("api_key", RNew StringInput []);
        ("system_prompt",
          RNew StringInput [("required", EBool false); ("multiline", EBool true)]);
        ("classification", RNew StringOutput []) ]
  end.

(** ** Evaluating a class body *)

(** A name is looked up in the module namespace; an unbound name is a
    [NameError], here [None]. *)
Definition eval_expr (g : gmap string value) (e : expr) : option value :=
  match e with
  | EStr s => Some (VStr s)
  | EBool b => Some (VBool b)
  | EName x => g !! x
  end.

Definition eval_kwarg (g : gmap string value) (kw : string * expr)
  : option (string * value) :=
  v ← eval_expr g kw.2; Some (kw.1, v).

(** Only the keyword arguments are evaluated: the constructors are those
    of [comfyui_types], whose own checks are outside this development, and
    a constructor call is taken to return the declaration it is given. *)
Definition eval_rhs (g : gmap string value) (r : rhs) : option attr :=
  match r with
  | RStr s => Some (AStr s)
  | RNew c kwargs => ANew c <$> mapM (eval_kwarg g) kwargs
  end.

Definition eval_assign (g : gmap string value) (a : string * rhs)
  : option (string * attr) :=
  v ← eval_rhs g a.2; Some (a.1, v).

Definition eval_body (g : gmap string value) (body : list (string * rhs))
  : option (list (string * attr)) :=
  mapM (eval_assign g) body.

(** The names an expression, a right-hand side, a class body refers to. *)
Definition expr_names (e : expr) : list string :=
  match e with
  | EName x => [x]
  | _ => []
  end.

Definition rhs_names (r : rhs) : list string :=
  match r with
  | RStr _ => []
  | RNew _ kwargs => concat (map (fun kw => expr_names kw.2) kwargs)
  end.

Definition body_names (body : list (string * rhs)) : list string :=
  concat (map (fun a => rhs_names a.2) body).

(** ** Reading a class namespace as a node schema *)

Definition is_output (c : ctor) : bool :=
  match c with
  | StringOutput => true
  | _ => false
  end.

Inductive io_type : Type :=
| TImage
| TString
| TChoice.

Definition ctor_type (c : ctor) : io_type :=
  match c with
  | ChoiceInput => TChoice
  | ImageInput => TImage
  | StringInput => TString
  | StringOutput => TString
  end.

(** One declared input or output: its constructor and keyword values. *)
Definition field : Type := ctor * list (string * value).

Fixpoint fields (keep : ctor -> bool) (ns : list (string * attr))
  : list (string * field) :=
  match ns with
  | [] => []
  | (x, ANew c kw) :: ns' =>
      if keep c then (x, (c, kw)) :: fields keep ns' else fields keep ns'
  | (_, AStr _) :: ns' => fields keep ns'
  end.

Definition inputs (ns : list (string * attr)) : list (string * field) :=
  fields (fun c => negb (is_output c)) ns.

Definition outputs (ns : list (string * attr)) : list (string * field) :=
  fields is_output ns.

(** Keyword lookup: the first binding of [k]. *)
Fixpoint kwarg (k : string) (kw : list (string * value)) : option value :=
  match kw with
  | [] => None
  | (k', v) :: kw' => if bool_decide (k = k') then Some v else kwarg k kw'
  end.

(** The [required] flag as written in the declaration, if it is. *)
Definition declared_required (f : field) : option bool :=
  match kwarg "required" f.2 with
  | Some (VBool b) => Some b
  | _ => None
  end.

(** The flag the host sees: the declared one, or the value [lib_default]
    that the [comfyui_types] constructors give [required] when the keyword
    is left out. *)
Definition required (lib_default : bool) (f : field) : bool :=
  default lib_default (declared_required f).

Definition declared_default (f : field) : option value :=
  kwarg "default" f.2.

Definition declared_choices (f : field) : option value :=
  kwarg "choices" f.2.

(** Lookup of a declared field by name. *)
Fixpoint field_named (x : string) (fs : list (string * field)) : option field :=
  match fs with
  | [] => None
  | (y, f) :: fs' => if bool_decide (x = y) then Some f else field_named x fs'
  end.

(** ** The package registration of [__init__.py] *)

Definition NODE_CLASS_MAPPINGS : gmap string node_class :=
  <["Classify Image" := ClassifyImage]>
    (<["Transform Text" := TransformText]>
       (<["Combine Texts" := CombineTexts]>
          (<["Describe Image" := DescribeImage]> ∅))).

(** ** Signatures of the [execute] methods *)

(** The parameters of each [execute] after [self], in source order.  None
    of them has a default value. *)
Definition execute_params (n : node_class) : list string :=
  match n with
  | DescribeImage =>
      ["image"; "model"; "api_key"; "system_prompt"; "prompt"]
  | CombineTexts =>
      ["text_1"; "text_1_prefix"; "text_2"; "text_2_prefix";
       "model"; "api_key"; "system_prompt"; "prompt"]
  | TransformText =>
      ["text"; "model"; "api_key"; "system_prompt"; "prompt"]
  | ClassifyImage =>
      ["image"; "classification_prompt"; "model"; "api_key"; "system_prompt"]
  end.

(** A call that passes the dictionary [kw] as keyword arguments to a
    function whose parameters [params] have no defaults: a keyword that is
    no parameter, or a parameter without keyword, is a [TypeError]
    ([None]); otherwise the values are bound in parameter order. *)
Definition bind_kwargs {V : Type} (params : list string) (kw : gmap string V)
  : option (list V) :=
  if bool_decide (dom kw ⊆ list_to_set params)
  then mapM (fun x => kw !! x) params
  else None.

(** ** The interpreter state and the [Py] monad *)

Section Runtime.
(** [tensor] stands for [torch.Tensor], [exn] for Python exceptions and
    [world] for everything outside the interpreter (the network, the
    vendor's service). *)
Context {tensor exn world : Type}.

(** [models], imported from [nodes/ai.py]. *)
Variable models : list string.

(** The namespace of [nodes/nodes.py] when the class statements run:
    the import first, then the two constants. *)
Definition nodes_globals : gmap string value :=
  <["COMBINE_TEXTS_PROMPT" := VStr COMBINE_TEXTS_PROMPT]>
    (<["DESCRIBE_IMAGE_PROMPT" := VStr DESCRIBE_IMAGE_PROMPT]>
       (<["models" := VList models]> ∅)).

Record pystate : Type := PyState {
  py_globals : gmap string value;
  py_classes : node_class -> list (string * attr);
  py_mappings : gmap string node_class;
  py_world : world
}.

(** Importing the package: the four class statements in source order,
    then the dictionary display of [__init__.py]. *)
Definition import_package (w : world) : option pystate :=
  d ← eval_body nodes_globals (class_body DescribeImage);
  c ← eval_body nodes_globals (class_body CombineTexts);
  t ← eval_body nodes_globals (class_body TransformText);
  k ← eval_body nodes_globals (class_body ClassifyImage);
  Some {| py_globals := nodes_globals;
          py_classes := fun n =>
            match n with
            | DescribeImage => d
            | CombineTexts => c
            | TransformText => t
            | ClassifyImage => k
            end;
          py_mappings := NODE_CLASS_MAPPINGS;
          py_world := w |}.

(** A call to one of the two helpers, with its positional arguments in
    the order of the helper's signature. *)
Inductive call : Type :=
| describe_image_call (image : tensor)
    (prompt system_prompt model api_key : string)
| run_prompt_call (prompt system_prompt model api_key : string).

Definition call_prompt (c : call) : string :=
  match c with
  | describe_image_call _ p _ _ _ => p
  | run_prompt_call p _ _ _ => p
  end.

(** What the helpers of [nodes/ai.py] do: from the interpreter state,
    either raise ([inl]) or return a [str] ([inr]), leaving a state. *)
Variable ai : call -> pystate -> (exn + string) * pystate.

Record outcome (A : Type) : Type := Outcome {
  result : exn + A;
  final : pystate;
  trace : list call
}.
#[global] Arguments Outcome {A} _ _ _.
#[global] Arguments result {A} _.
#[global] Arguments final {A} _.
#[global] Arguments trace {A} _.

Definition Py (A : Type) : Type := pystate -> outcome A.

#[global] Instance Py_ret : MRet Py := fun A a σ => Outcome (inr a) σ [].

#[global] Instance Py_bind : MBind Py := fun A B f m σ =>
  let o := m σ in
  match result o with
  | inl e => Outcome (inl e) (final o) (trace o)
  | inr a =>
      let o' := f a (final o) in
      Outcome (result o') (final o') (trace o ++ trace o')
  end.

Definition invoke (c : call) : Py string := fun σ =>
  let r := ai c σ in Outcome r.1 r.2 [c].

Definition describe_image (image : tensor)
    (prompt system_prompt model api_key : string) : Py string :=
  invoke (describe_image_call image prompt system_prompt model api_key).

Definition run_prompt (prompt system_prompt model api_key : string)
  : Py string :=
  invoke (run_prompt_call prompt system_prompt model api_key).

(** *** The four [execute] methods

    A returned tuple [(r,)] is the list [[r]].  The methods never use
    [self], which is left out. *)

Definition DescribeImage_execute (image : tensor)
    (model api_key system_prompt prompt : string) : Py (list string) :=
  r ← describe_image image prompt system_prompt model api_key;
  mret [r].

Definition CombineTexts_full_prompt
    (text_1 text_1_prefix text_2 text_2_prefix prompt : string) : string :=
  fstring [Field prompt; Text nl; Field text_1_prefix; Text " ";
           Field text_1; Text nl; Field text_2_prefix; Text " ";
           Field text_2].

Definition CombineTexts_execute
    (text_1 text_1_prefix text_2 text_2_prefix
     model api_key system_prompt prompt : string) : Py (list string) :=
  let full_prompt :=
    CombineTexts_full_prompt text_1 text_1_prefix text_2 text_2_prefix prompt in
  r ← run_prompt full_prompt system_prompt model api_key;
  mret [r].

Definition TransformText_full_prompt (text prompt : string) : string :=
  fstring [Field prompt; Text (nl +:+ "Text: "); Field text; Text nl].

Definition TransformText_execute
    (text model api_key system_prompt prompt : string) : Py (list string) :=
  let full_prompt := TransformText_full_prompt text prompt in
  r ← run_prompt full_prompt system_prompt model api_key;
  mret [r].

Definition ClassifyImage_execute (image : tensor)
    (classification_prompt model api_key system_prompt : string)
  : Py (list string) :=
  r ← describe_image image classification_prompt system_prompt model api_key;
  mret [r].

(** *** The host's view: a node together with its resolved inputs *)

Inductive invocation : Type :=
| run_DescribeImage (image : tensor)
    (model api_key system_prompt prompt : string)
| run_CombineTexts
    (text_1 text_1_prefix text_2 text_2_prefix
     model api_key system_prompt prompt : string)
| run_TransformText (text model api_key system_prompt prompt : string)
| run_ClassifyImage (image : tensor)
    (classification_prompt model api_key system_prompt : string).

Definition execute (i : invocation) : Py (list string) :=
  match i with
  | run_DescribeImage image model api_key system_prompt prompt =>
      DescribeImage_execute image model api_key system_prompt prompt
  | run_CombineTexts t1 p1 t2 p2 model api_key system_prompt prompt =>
      CombineTexts_execute t1 p1 t2 p2 model api_key system_prompt prompt
  | run_TransformText text model api_key system_prompt prompt =>
      TransformText_execute text model api_key system_prompt prompt
  | run_ClassifyImage image cp model api_key system_prompt =>
      ClassifyImage_execute image cp model api_key system_prompt
  end.

(** The class whose [execute] an invocation runs. *)
Definition node_of (i : invocation) : node_class :=
  match i with
  | run_DescribeImage _ _ _ _ _ => DescribeImage
  | run_CombineTexts _ _ _ _ _ _ _ _ => CombineTexts
  | run_TransformText _ _ _ _ _ => TransformText
  | run_ClassifyImage _ _ _ _ _ => ClassifyImage
  end.

(** The namespace a class statement leaves, and its schema. *)
Definition class_namespace (c : node_class) : option (list (string * attr)) :=
  eval_body nodes_globals (class_body c).

(** Name, effective [required] flag and declared default of each input. *)
Definition input_flags (lib_default : bool) (ns : list (string * attr))
  : list (string * (bool * option value)) :=
  map (fun xf => (xf.1, (required lib_default xf.2, declared_default xf.2)))
      (inputs ns).

(** What [return (r,)] makes of the helper's result. *)
Definition wrap (r : exn + string) : exn + list string :=
  match r with
  | inl e => inl e
  | inr s => inr [s]
  end.

End Runtime.

(** ** Helper names and helper behaviours *)

Section Resolution.
Context {tensor exn world : Type}.





End Resolution.

(** ** A concrete setting

    Two model identifiers, images as lists of pixel values, exceptions by
    name, and a world that counts the requests served.  The helper refuses
    an empty API key and otherwise answers. *)

Module Demo.

Definition models : list string :=
  ["claude-3-7-sonnet-20250219"; "claude-3-5-haiku-20241022"].

Definition image : list nat := [0; 128; 255].

Definition st0 : @pystate nat :=
  default (PyState ∅ (fun _ => []) ∅ 0) (import_package models 0).

Definition served (σ : @pystate nat) : @pystate nat :=
  PyState (py_globals σ) (py_classes σ) (py_mappings σ) (S (py_world σ)).

Definition api_key_of (c : @call (list nat)) : string :=
  match c with
  | describe_image_call _ _ _ _ k => k
  | run_prompt_call _ _ _ k => k
  end.

Definition ai (c : @call (list nat)) (σ : @pystate nat)
  : (string + string) * @pystate nat :=
  if bool_decide (api_key_of c = "")
  then (inl "AuthenticationError", served σ)
  else (inr ("reply to: " +:+ call_prompt c), served σ).

(** Three requests of a host, and the helper calls they lead to. *)
Definition translate : @invocation (list nat) :=
  run_TransformText "hello" "claude-3-7-sonnet-20250219" "" ""
    "Translate to French.".

Definition translate_call : @call (list nat) :=
  run_prompt_call ("Translate to French." +:+ nl +:+ "Text: hello" +:+ nl)
    "" "claude-3-7-sonnet-20250219" "".

Definition describe : @invocation (list nat) :=
  run_DescribeImage image "claude-3-5-haiku-20241022" "sk-demo" "Be brief."
    DESCRIBE_IMAGE_PROMPT.

Definition describe_call : @call (list nat) :=
  describe_image_call image DESCRIBE_IMAGE_PROMPT "Be brief."
    "claude-3-5-haiku-20241022" "sk-demo".


Definition combine_call : @call (list nat) :=
  run_prompt_call ("Merge." +:+ nl +:+ "X a" +:+ nl +:+ "Y b")
    "" "claude-3-7-sonnet-20250219" "sk-demo".



End Demo.

(** * Properties *)

Section Properties.
Context {tensor exn world : Type}.
Variable models : list string.
Variable ai : @call tensor → @pystate world → (exn + string) * @pystate world.

Implicit Types (σ : @pystate world) (c : @call tensor)
  (i : @invocation tensor) (n : node_class).

(** ** Shared lemmas *)

Lemma append_cons (a : ascii) (s t : string) :
  String a s +:+ t = String a (s +:+ t).
Proof. reflexivity. Qed.

Lemma append_empty_r (s : string) : s +:+ "" = s.
Proof.
  induction s as [|a s IH]; [reflexivity |]. by rewrite append_cons, IH.
Qed.

Lemma append_assoc (s t u : string) : (s +:+ t) +:+ u = s +:+ (t +:+ u).
Proof.
  induction s as [|a s IH]; [reflexivity |]. by rewrite !append_cons, IH.
Qed.

Lemma ends_with_newline_append (s : string) (a : ascii) (t : string) :
  ends_with_newline (s +:+ String a t) = ends_with_newline (String a t).
Proof.
  induction s as [|b s IH]; [reflexivity |].
  rewrite append_cons, <- IH.
  destruct (s +:+ String a t) eqn:E; [| reflexivity].
  destruct s; discriminate E.
Qed.

Lemma CombineTexts_full_prompt_eq (t1 x t2 y p : string) :
  CombineTexts_full_prompt t1 x t2 y p
  = p +:+ nl +:+ x +:+ " " +:+ t1 +:+ nl +:+ y +:+ " " +:+ t2.
Proof.
  unfold CombineTexts_full_prompt, fstring, render.
  by rewrite append_empty_r.
Qed.

Lemma TransformText_full_prompt_eq (t p : string) :
  TransformText_full_prompt t p = p +:+ nl +:+ "Text: " +:+ t +:+ nl.
Proof. reflexivity. Qed.

(** One helper call followed by [return (r,)]: the helper's outcome with
    a returned string wrapped, the helper's final state, and one call in
    the trace. *)
Lemma invoke_return_tuple (c : call) (σ : pystate) :
  (r ← invoke ai c; mret [r]) σ = Outcome (wrap (ai c σ).1) (ai c σ).2 [c].
Proof.
  unfold mbind, Py_bind, invoke, mret, Py_ret. simpl.
  destruct (ai c σ) as [[e|s] σ']; reflexivity.
Qed.

(** Every node makes exactly one helper call, decided by its inputs
    alone, and its outcome is the helper's. *)
Lemma execute_one_call (i : invocation) :
  ∃ c : call, ∀ σ : pystate,
    execute ai i σ = Outcome (wrap (ai c σ).1) (ai c σ).2 [c].
Proof.
  destruct i; eexists; intros σ; apply invoke_return_tuple.
Qed.

Lemma execute_trace_inv (i : invocation) (σ : pystate) (c : call) :
  c ∈ trace (execute ai i σ) →
  execute ai i σ = Outcome (wrap (ai c σ).1) (ai c σ).2 [c].
Proof.
  destruct (execute_one_call i) as [c' Hc']. rewrite Hc'. simpl.
  intros ->%list_elem_of_singleton. reflexivity.
Qed.

Lemma ends_with_newline_TransformText (t p : string) :
  ends_with_newline (TransformText_full_prompt t p) = true.
Proof.
  rewrite TransformText_full_prompt_eq, <- !append_assoc.
  change nl with (String LF "") at 2.
  by rewrite ends_with_newline_append.
Qed.

Lemma ends_with_newline_CombineTexts (t1 x t2 y p : string) :
  ends_with_newline (CombineTexts_full_prompt t1 x t2 y p)
  = ends_with_newline t2.
Proof.
  rewrite CombineTexts_full_prompt_eq, <- !append_assoc.
  rewrite (append_assoc _ " " t2).
  change (" " +:+ t2) with (String " " t2).
  rewrite ends_with_newline_append. by destruct t2.
Qed.

(** ** Prompt assembly *)

(** C1. For all prompt [p], texts [t1], [t2] and prefixes [x], [y], the
    prompt [CombineTexts.execute] assembles is [p], a line feed, [x], a
    space, [t1], a line feed, [y], a space, [t2]; with [t1 = "a"],
    [x = "X"], [t2 = "b"], [y = "Y"] it is [p] followed by
    [\nX a\nY b]; and the one call the method makes is [run_prompt] with
    that string as first argument. *)
Theorem CombineTexts_prompt_exact
    (p t1 t2 x y model api_key system_prompt : string) (σ : pystate) :
  CombineTexts_full_prompt t1 x t2 y p
    = p +:+ nl +:+ x +:+ " " +:+ t1 +:+ nl +:+ y +:+ " " +:+ t2
  ∧ CombineTexts_full_prompt "a" "X" "b" "Y" p
    = p +:+ (nl +:+ "X a" +:+ nl +:+ "Y b")
  ∧ trace (CombineTexts_execute ai t1 x t2 y model api_key system_prompt p σ)
    = [run_prompt_call
         (p +:+ nl +:+ x +:+ " " +:+ t1 +:+ nl +:+ y +:+ " " +:+ t2)
         system_prompt model api_key].
Proof.
  split; [apply CombineTexts_full_prompt_eq |].
  split; [by rewrite CombineTexts_full_prompt_eq |].
  unfold CombineTexts_execute, run_prompt.
  rewrite invoke_return_tuple, CombineTexts_full_prompt_eq. reflexivity.
Qed.

(** C10. For all prompt [p] and text [t], the prompt
    [TransformText.execute] assembles and passes to [run_prompt] is [p],
    a line feed, ["Text: "], [t], a line feed, so it always ends with a
    line feed; the [CombineTexts] prompt has nothing after [text_2]: it
    ends with a line feed exactly when [text_2] does. *)
Theorem TransformText_prompt_trailing_newline
    (p t model api_key system_prompt : string) (σ : pystate) :
  TransformText_full_prompt t p = p +:+ nl +:+ "Text: " +:+ t +:+ nl
  ∧ trace (TransformText_execute ai t model api_key system_prompt p σ)
    = [run_prompt_call (p +:+ nl +:+ "Text: " +:+ t +:+ nl)
         system_prompt model api_key]
  ∧ ends_with_newline (TransformText_full_prompt t p) = true
  ∧ (∀ t1 x t2 y : string,
       ends_with_newline (CombineTexts_full_prompt t1 x t2 y p)
       = ends_with_newline t2)
  ∧ ends_with_newline (CombineTexts_full_prompt "a" "X" "b" "Y" p) = false.
Proof.
  split; [apply TransformText_full_prompt_eq |].
  split.
  { unfold TransformText_execute, run_prompt.
    by rewrite invoke_return_tuple, TransformText_full_prompt_eq. }
  split; [apply ends_with_newline_TransformText |].
  split; [intros; apply ends_with_newline_CombineTexts |].
  by rewrite ends_with_newline_CombineTexts.
Qed.

(** ** Outcome of [execute] *)

(** C2. For every node and every input valuation, when the helper call
    that [execute] makes raises [e], [execute] ends with that same [e]:
    nothing is caught, wrapped or replaced, no value is returned, no
    further call is made and the state is the one the helper left. *)
Theorem helper_exception_propagates
    (i : invocation) (σ σ' : pystate) (c : call) (e : exn) :
  c ∈ trace (execute ai i σ) →
  ai c σ = (inl e, σ') →
  execute ai i σ = Outcome (inl e) σ' [c].
Proof.
  intros Hc He. rewrite (execute_trace_inv i σ c Hc), He. reflexivity.
Qed.


(** C3. Every node class declares exactly one output, and it is a
    string output; and every [execute] makes one helper call, fixed by
    its inputs, such that whenever the helper returns the string [s] on
    it, [execute] returns the one-element tuple [(s,)], in the state the
    helper left. *)
Theorem one_string_output_passthrough :
  (∀ n, ∃ ns x f,
      class_namespace models n = Some ns ∧ outputs ns = [(x, f)]
      ∧ f.1 = StringOutput ∧ ctor_type f.1 = TString)
  ∧ (∀ i, ∃ c,
       (∀ σ, trace (execute ai i σ) = [c])
       ∧ ∀ σ σ' (s : string),
           ai c σ = (inr s, σ') →
           execute ai i σ = Outcome (inr [s]) σ' [c]).
Proof.
  split.
  - intros n. destruct n; vm_compute; do 3 eexists; done.
  - intros i. destruct (execute_one_call i) as [c Hc]. exists c. split.
    + intros σ. by rewrite Hc.
    + intros σ σ' s Hs. by rewrite Hc, Hs.
Qed.

(** C7. [DescribeImage] and [ClassifyImage] call
    [describe_image(image, prompt, system_prompt, model, api_key)] with
    the image and the (classification) prompt passed through unchanged;
    [CombineTexts] and [TransformText] call
    [run_prompt(prompt, system_prompt, model, api_key)] with the
    assembled prompt first; and in every node the [model] input is a
    choice among [models]. *)
Theorem helper_call_arguments :
  (∀ (image : tensor) (model api_key system_prompt prompt : string) σ,
     trace (DescribeImage_execute ai image model api_key system_prompt prompt σ)
     = [describe_image_call image prompt system_prompt model api_key])
  ∧ (∀ (image : tensor) (cp model api_key system_prompt : string) σ,
       trace (ClassifyImage_execute ai image cp model api_key system_prompt σ)
       = [describe_image_call image cp system_prompt model api_key])
  ∧ (∀ (t1 x t2 y model api_key system_prompt prompt : string) σ,
       trace (CombineTexts_execute ai t1 x t2 y model api_key system_prompt
                prompt σ)
       = [run_prompt_call (CombineTexts_full_prompt t1 x t2 y prompt)
            system_prompt model api_key])
  ∧ (∀ (text model api_key system_prompt prompt : string) σ,
       trace (TransformText_execute ai text model api_key system_prompt prompt σ)
       = [run_prompt_call (TransformText_full_prompt text prompt)
            system_prompt model api_key])
  ∧ (∀ n : node_class, ∃ ns f,
       class_namespace models n = Some ns
       ∧ field_named "model" (inputs ns) = Some f
       ∧ f.1 = ChoiceInput
       ∧ declared_choices f = Some (VList models)).
Proof.
  repeat split;
    try (intros;
         unfold DescribeImage_execute, ClassifyImage_execute,
           CombineTexts_execute, TransformText_execute,
           describe_image, run_prompt;
         by rewrite invoke_return_tuple).
  intros n. destruct n; vm_compute; do 2 eexists; done.
Qed.

(** ** Schemas *)

(** C5. In each of the four nodes the optional inputs are exactly
    [system_prompt] and, where there is one, [prompt] (declared with
    [required=False]); every other input (image, texts, prefixes,
    classification prompt, model, API key) leaves [required] out and so
    is required, [comfyui_types] taking [required=True] when the keyword
    is absent; and each node's inputs carry the defaults listed. *)
Theorem input_schema_flags :
  (∀ n : node_class, ∃ ns,
      class_namespace models n = Some ns
      ∧ Forall (fun xf : string * field =>
                  (required true xf.2 = false
                   ↔ xf.1 = "system_prompt" ∨ xf.1 = "prompt")
                  ∧ (declared_required xf.2 = Some false
                     ↔ xf.1 = "system_prompt" ∨ xf.1 = "prompt")
                  ∧ (declared_required xf.2 = None
                     ↔ ¬ (xf.1 = "system_prompt" ∨ xf.1 = "prompt")))
               (inputs ns))
  ∧ input_flags true <$> class_namespace models DescribeImage
    = Some [ ("image", (true, None));
             ("model", (true, None));
             ("api_key", (true, None));
             ("system_prompt", (false, None));
             ("prompt", (false, Some (VStr DESCRIBE_IMAGE_PROMPT))) ]
  ∧ input_flags true <$> class_namespace models CombineTexts
    = Some [ ("text_1", (true, None));
             ("text_1_prefix", (true, Some (VStr "1")));
             ("text_2", (true, None));
             ("text_2_prefix", (true, Some (VStr "2")));
             ("model", (true, None));
             ("api_key", (true, None));
             ("system_prompt", (false, None));
             ("prompt", (false, Some (VStr DESCRIBE_IMAGE_PROMPT))) ]
  ∧ input_flags true <$> class_namespace models TransformText
    = Some [ ("text", (true, None));
             ("model", (true, None));
             ("api_key", (true, None));
             ("system_prompt", (false, None));
             ("prompt", (false, Some (VStr DESCRIBE_IMAGE_PROMPT))) ]
  ∧ input_flags true <$> class_namespace models ClassifyImage
    = Some [ ("image", (true, None));
             ("classification_prompt",
               (true, Some (VStr CLASSIFICATION_PROMPT_DEFAULT)));
             ("model", (true, Some (VStr "claude-3-7-sonnet-20250219")));
             ("api_key", (true, None));
             ("system_prompt", (false, None)) ].
Proof.
  split; [| repeat split; vm_compute; reflexivity].
  intros n.
  destruct n; eexists; (split; [vm_compute; reflexivity |]);
    cbn; repeat (first [apply Forall_nil_2 | apply Forall_cons_2]);
    vm_compute; intuition congruence.
Qed.

(** C9. The default of [CombineTexts]'s optional [prompt] input is
    [DESCRIBE_IMAGE_PROMPT], the string [Describe this image in detail.];
    [COMBINE_TEXTS_PROMPT] is bound to its sentence and then never used:
    no class body names it, no input has it as default, rebinding or
    deleting it changes no class namespace, and no [execute] depends on
    the module variables. *)
Theorem COMBINE_TEXTS_PROMPT_unused :
  COMBINE_TEXTS_PROMPT
    = "Combine the following two texts into one coherent prompt without redundancies."
  ∧ nodes_globals models !! "COMBINE_TEXTS_PROMPT" = Some (VStr COMBINE_TEXTS_PROMPT)
  ∧ (∃ ns f, class_namespace models CombineTexts = Some ns
             ∧ field_named "prompt" (inputs ns) = Some f
             ∧ declared_required f = Some false
             ∧ declared_default f = Some (VStr DESCRIBE_IMAGE_PROMPT)
             ∧ DESCRIBE_IMAGE_PROMPT = "Describe this image in detail.")
  ∧ (∀ n : node_class, "COMBINE_TEXTS_PROMPT" ∉ body_names (class_body n))
  ∧ (∀ n : node_class, ∃ ns,
       class_namespace models n = Some ns
       ∧ Forall (fun xf : string * field =>
                   declared_default xf.2 ≠ Some (VStr COMBINE_TEXTS_PROMPT))
                (inputs ns))
  ∧ (∀ (n : node_class) (v : value),
       eval_body (<["COMBINE_TEXTS_PROMPT" := v]> (nodes_globals models)) (class_body n)
       = class_namespace models n)
  ∧ (∀ n : node_class,
       eval_body (delete "COMBINE_TEXTS_PROMPT" (nodes_globals models)) (class_body n)
       = class_namespace models n)
  ∧ (∀ (i : invocation) (σ : pystate) (g : gmap string value),
       trace (execute ai i
                (PyState g (py_classes σ) (py_mappings σ) (py_world σ)))
       = trace (execute ai i σ)).
Proof.
  split; [reflexivity |].
  split; [by vm_compute |].
  split; [vm_compute; do 2 eexists; done |].
  split.
  { intros n. apply (bool_decide_unpack _). by destruct n; vm_compute. }
  split.
  { intros n.
    destruct n; eexists; (split; [vm_compute; reflexivity |]);
      cbn; repeat (first [apply Forall_nil_2 | apply Forall_cons_2]);
      vm_compute; congruence. }
  split; [intros n v; by destruct n; vm_compute |].
  split; [intros n; by destruct n; vm_compute |].
  intros i σ g. destruct (execute_one_call i) as [c Hc].
  by rewrite !Hc.
Qed.

End Properties.

(** ** Registration *)

(** C4. [NODE_CLASS_MAPPINGS] has exactly four entries: ['Describe Image'],
    ['Combine Texts'], ['Transform Text'] and ['Classify Image'], bound to
    [DescribeImage], [CombineTexts], [TransformText] and [ClassifyImage]. *)
Theorem NODE_CLASS_MAPPINGS_entries :
  size NODE_CLASS_MAPPINGS = 4
  ∧ NODE_CLASS_MAPPINGS !! "Describe Image" = Some DescribeImage
  ∧ NODE_CLASS_MAPPINGS !! "Combine Texts" = Some CombineTexts
  ∧ NODE_CLASS_MAPPINGS !! "Transform Text" = Some TransformText
  ∧ NODE_CLASS_MAPPINGS !! "Classify Image" = Some ClassifyImage
  ∧ ∀ (k : string) (c : node_class),
      NODE_CLASS_MAPPINGS !! k = Some c
      ↔ (k, c) ∈ [ ("Describe Image", DescribeImage);
                   ("Combine Texts", CombineTexts);
                   ("Transform Text", TransformText);
                   ("Classify Image", ClassifyImage) ].
Proof.
  split; [by vm_compute |].
  do 4 (split; [by vm_compute |]).
  intros k c. rewrite !elem_of_cons, elem_of_nil. unfold NODE_CLASS_MAPPINGS.
  split.
  - intros H.
    repeat (rewrite lookup_insert in H; case_decide;
            [simplify_eq; tauto |]).
    by rewrite lookup_empty in H.
  - intros [H|[H|[H|[H|[]]]]]; simplify_eq; by vm_compute.
Qed.

(** ** Determinism of prompt assembly *)

(** C6. The prompt a node assembles depends on the arguments of [execute]
    and on nothing else: run from any two states, against any two
    behaviours of the helpers, [execute] on the same inputs makes the same
    single call, with the same prompt. *)
Theorem prompt_assembly_deterministic {tensor exn world : Type}
    (ai1 ai2 : @call tensor → @pystate world → (exn + string) * @pystate world)
    (i : @invocation tensor) (σ1 σ2 : @pystate world) :
  trace (execute ai1 i σ1) = trace (execute ai2 i σ2)
  ∧ call_prompt <$> trace (execute ai1 i σ1)
    = call_prompt <$> trace (execute ai2 i σ2)
  ∧ length (trace (execute ai1 i σ1)) = 1.
Proof.
  assert (∃ c, trace (execute ai1 i σ1) = [c]
               ∧ trace (execute ai2 i σ2) = [c]) as (c & H1 & H2).
  { destruct i; eexists; unfold execute, DescribeImage_execute,
      CombineTexts_execute, TransformText_execute, ClassifyImage_execute,
      describe_image, run_prompt; by rewrite !invoke_return_tuple. }
  by rewrite H1, H2.
Qed.

(** ** Frame *)


(** ** The conditional properties at concrete inputs *)

(** An empty API key: the helper raises, and so does [TransformText]. *)
Lemma helper_exception_propagates_witness :
  Demo.translate_call ∈ trace (execute Demo.ai Demo.translate Demo.st0)
  ∧ Demo.ai Demo.translate_call Demo.st0
    = (inl "AuthenticationError", Demo.served Demo.st0)
  ∧ execute Demo.ai Demo.translate Demo.st0
    = Outcome (inl "AuthenticationError") (Demo.served Demo.st0)
        [Demo.translate_call].
Proof.
  assert (Demo.translate_call
          ∈ trace (execute Demo.ai Demo.translate Demo.st0)) as Hc
    by (vm_compute; left).
  assert (Demo.ai Demo.translate_call Demo.st0
          = (inl "AuthenticationError", Demo.served Demo.st0)) as He
    by reflexivity.
  exact (conj Hc (conj He
    (helper_exception_propagates Demo.ai Demo.translate Demo.st0
       (Demo.served Demo.st0) Demo.translate_call "AuthenticationError"
       Hc He))).
Defined.



(** A valid key: the helper's reply comes back as a one-element tuple. *)
Lemma one_string_output_passthrough_witness :
  Demo.ai Demo.describe_call Demo.st0
  = (inr "reply to: Describe this image in detail.", Demo.served Demo.st0)
  ∧ execute Demo.ai Demo.describe Demo.st0
    = Outcome (inr ["reply to: Describe this image in detail."])
        (Demo.served Demo.st0) [Demo.describe_call].
Proof.
  assert (Demo.ai Demo.describe_call Demo.st0
          = (inr "reply to: Describe this image in detail.",
             Demo.served Demo.st0)) as Hs
    by reflexivity.
  destruct (proj2 (one_string_output_passthrough Demo.models Demo.ai)
              Demo.describe) as (c & Ht & Hc).
  specialize (Ht Demo.st0). injection Ht as <-.
  exact (conj Hs (Hc Demo.st0 (Demo.served Demo.st0)
                    "reply to: Describe this image in detail." Hs)).
Defined.

(** ** Where the unqualified frame statement fails *)


(** * Further properties of the prompt strings *)

Lemma nl_append (s : string) : nl +:+ s = String LF s.
Proof. reflexivity. Qed.

Lemma space_append (s : string) : " " +:+ s = String " " s.
Proof. reflexivity. Qed.

Lemma length_append (s t : string) :
  String.length (s +:+ t) = String.length s + String.length t.
Proof.
  induction s as [|a s IH]; [reflexivity |].
  rewrite append_cons. simpl. by rewrite IH.
Qed.

Lemma append_inj_l (s t t' : string) : s +:+ t = s +:+ t' → t = t'.
Proof.
  induction s as [|a s IH]; [done |].
  rewrite !append_cons. intros [= E]. by apply IH.
Qed.

Lemma append_char_inj_r (c : ascii) (s s' : string) :
  s +:+ String c "" = s' +:+ String c "" → s = s'.
Proof.
  revert s'. induction s as [|a s IH]; intros [|a' s'];
    rewrite ?append_cons; simpl; intros E.
  - done.
  - injection E as _ E. by destruct s'.
  - injection E as _ E. by destruct s.
  - injection E as -> E. f_equal. by apply IH.
Qed.

(** A text is cut at the first occurrence of a character in one way. *)
Lemma split_at_char (c : ascii) (a1 a2 b1 b2 : string) :
  has_char c a1 = false → has_char c a2 = false →
  a1 +:+ String c b1 = a2 +:+ String c b2 →
  a1 = a2 ∧ b1 = b2.
Proof.
  revert a2. induction a1 as [|h a1 IH]; intros [|h2 a2];
    rewrite ?append_cons; simpl; intros H1 H2 E.
  - by injection E.
  - injection E as <- _. by rewrite bool_decide_eq_true_2 in H2.
  - injection E as -> _. by rewrite bool_decide_eq_true_2 in H1.
  - injection E as -> E.
    apply orb_false_iff in H1 as [_ H1]. apply orb_false_iff in H2 as [_ H2].
    destruct (IH a2 H1 H2 E) as [-> ->]. done.
Qed.

(** X1. In the [CombineTexts] prompt a line feed inside a text can stand
    for the boundary between the two texts: a first text that goes on with
    a line feed, [y], a space and [t2] gives, with second text [t3] under
    prefix [z], the same prompt as first text [t1] with second text [t2],
    line feed, [z], space, [t3] under prefix [y]; and the two first texts
    differ. *)
Theorem CombineTexts_boundary_shift (p x y z t1 t2 t3 : string) :
  CombineTexts_full_prompt (t1 +:+ nl +:+ y +:+ " " +:+ t2) x t3 z p
  = CombineTexts_full_prompt t1 x (t2 +:+ nl +:+ z +:+ " " +:+ t3) y p
  ∧ t1 +:+ nl +:+ y +:+ " " +:+ t2 ≠ t1.
Proof.
  split.
  - rewrite !CombineTexts_full_prompt_eq, !append_assoc. reflexivity.
  - intros E. apply (f_equal String.length) in E.
    rewrite !length_append in E. simpl in E. lia.
Qed.

(** X2. When the prompts hold no line feed, the prefixes no space and the
    first texts no line feed, the [CombineTexts] prompt determines all
    five inputs. *)
Theorem CombineTexts_prompt_injective
    (p x t1 y t2 p' x' t1' y' t2' : string) :
  has_char LF p = false → has_char LF p' = false →
  has_char " " x = false → has_char " " x' = false →
  has_char LF t1 = false → has_char LF t1' = false →
  has_char " " y = false → has_char " " y' = false →
  CombineTexts_full_prompt t1 x t2 y p
  = CombineTexts_full_prompt t1' x' t2' y' p' →
  p = p' ∧ x = x' ∧ t1 = t1' ∧ y = y' ∧ t2 = t2'.
Proof.
  intros Hp Hp' Hx Hx' Ht Ht' Hy Hy' E.
  rewrite !CombineTexts_full_prompt_eq, !nl_append, !space_append in E.
  apply split_at_char in E as [-> E]; [| done..].
  apply split_at_char in E as [-> E]; [| done..].
  apply split_at_char in E as [-> E]; [| done..].
  apply split_at_char in E as [-> ->]; done.
Qed.

(** X3. In the [TransformText] prompt a text can pass for more prompt:
    prompt [p] with text [u], line feed, ["Text: "], [t] gives the same
    string as prompt [p], line feed, ["Text: "], [u] with text [t]; and
    the two texts differ. *)
Theorem TransformText_boundary_shift (p u t : string) :
  TransformText_full_prompt (u +:+ nl +:+ "Text: " +:+ t) p
  = TransformText_full_prompt t (p +:+ nl +:+ "Text: " +:+ u)
  ∧ u +:+ nl +:+ "Text: " +:+ t ≠ t.
Proof.
  split.
  - rewrite !TransformText_full_prompt_eq, !append_assoc. reflexivity.
  - intros E. apply (f_equal String.length) in E.
    rewrite !length_append in E. simpl in E. lia.
Qed.

(** X4. For one prompt the [TransformText] prompt determines the text; and
    when the prompts hold no line feed it determines prompt and text. *)
Theorem TransformText_prompt_injective (p t p' t' : string) :
  (TransformText_full_prompt t p = TransformText_full_prompt t' p → t = t')
  ∧ (has_char LF p = false → has_char LF p' = false →
     TransformText_full_prompt t p = TransformText_full_prompt t' p' →
     p = p' ∧ t = t').
Proof.
  assert (∀ a b : string,
            "Text: " +:+ a +:+ nl = "Text: " +:+ b +:+ nl → a = b) as Hcut.
  { intros a b E. apply append_inj_l in E. by apply append_char_inj_r in E. }
  rewrite !TransformText_full_prompt_eq. split.
  - intros E. apply append_inj_l, append_inj_l in E. by apply Hcut.
  - intros Hp Hp' E. rewrite !nl_append in E.
    apply split_at_char in E as [-> E]; [| done..].
    split; [done |]. by apply Hcut.
Qed.

(** X5. The [CombineTexts] prompt is four characters longer than its five
    inputs together, the [TransformText] prompt eight longer than its two:
    neither is empty, whatever the inputs, and with every input empty they
    are the separators alone. *)
Theorem full_prompt_length (p x t1 y t2 t : string) :
  String.length (CombineTexts_full_prompt t1 x t2 y p)
  = String.length p + String.length x + String.length t1
    + String.length y + String.length t2 + 4
  ∧ String.length (TransformText_full_prompt t p)
    = String.length p + String.length t + 8
  ∧ CombineTexts_full_prompt "" "" "" "" "" = nl +:+ " " +:+ nl +:+ " "
  ∧ TransformText_full_prompt "" "" = nl +:+ "Text: " +:+ nl.
Proof.
  rewrite CombineTexts_full_prompt_eq, TransformText_full_prompt_eq.
  rewrite !length_append. simpl. repeat split; try lia; reflexivity.
Qed.

(** * Further properties of the declarations *)

Section Declarations.
Variable models : list string.

Lemma field_named_elem_of (x : string) (f : field) (fs : list (string * field)) :
  NoDup fs.*1 → field_named x fs = Some f ↔ (x, f) ∈ fs.
Proof.
  induction fs as [|[y g] fs IH]; simpl; intros Hnd.
  - split; [done | by intros ?%elem_of_nil].
  - apply NoDup_cons in Hnd as [Hy Hnd]. rewrite elem_of_cons.
    case_bool_decide as Hxy.
    + subst y. split; [intros [= ->]; by left |].
      intros [[= ->] | Hin]; [done |].
      destruct Hy. apply list_elem_of_fmap. by exists (x, f).
    + rewrite (IH Hnd). split; [by right |].
      intros [[= -> ->] | Hin]; done.
Qed.

Lemma bind_kwargs_is_Some {V : Type} (params : list string) (kw : gmap string V) :
  is_Some (bind_kwargs params kw) ↔ dom kw = list_to_set params.
Proof.
  unfold bind_kwargs. case_bool_decide as Hsub.
  - rewrite mapM_is_Some, Forall_forall. split.
    + intros Hall. apply set_eq. intros x. split; [by apply Hsub |].
      rewrite elem_of_list_to_set, elem_of_dom. apply Hall.
    + intros Heq x Hx. simpl. apply elem_of_dom. rewrite Heq.
      by apply elem_of_list_to_set.
  - split; [by intros [? ?] |]. intros Heq. destruct Hsub. by rewrite Heq.
Qed.

Lemma NODE_CLASS_MAPPINGS_lookup_inv (k : string) (n : node_class) :
  NODE_CLASS_MAPPINGS !! k = Some n →
  (k, n) ∈ [ ("Describe Image", DescribeImage);
             ("Combine Texts", CombineTexts);
             ("Transform Text", TransformText);
             ("Classify Image", ClassifyImage) ].
Proof.
  unfold NODE_CLASS_MAPPINGS. intros H.
  rewrite !elem_of_cons, elem_of_nil.
  repeat (rewrite lookup_insert in H; case_decide; [simplify_eq; tauto |]).
  by rewrite lookup_empty in H.
Qed.

(** X6. The parameters of each [execute] are the declared inputs of its
    class, in the same order; so a keyword call binds exactly when the
    keywords are the declared input names, and is a [TypeError] when
    [system_prompt], optional in the schema, is left out. *)
Theorem execute_params_match_inputs (n : node_class) :
  ∃ ns,
    class_namespace models n = Some ns
    ∧ execute_params n = (inputs ns).*1
    ∧ (∀ (V : Type) (kw : gmap string V),
         is_Some (bind_kwargs (execute_params n) kw)
         ↔ dom kw = list_to_set (inputs ns).*1)
    ∧ (∀ (V : Type) (kw : gmap string V),
         bind_kwargs (execute_params n) (delete "system_prompt" kw) = None).
Proof.
  assert (∃ ns, class_namespace models n = Some ns
                ∧ execute_params n = (inputs ns).*1) as (ns & Hns & Hp).
  { destruct n; eexists; (split; [vm_compute; reflexivity |]); reflexivity. }
  exists ns. split; [done |]. split; [done |]. rewrite <- Hp. split.
  - intros V kw. apply bind_kwargs_is_Some.
  - intros V kw. apply eq_None_not_Some. rewrite bind_kwargs_is_Some.
    intros Heq.
    assert ("system_prompt" ∈ dom (delete "system_prompt" kw)) as Hin.
    { rewrite Heq, elem_of_list_to_set.
      apply (bool_decide_unpack _). by destruct n; vm_compute. }
    rewrite dom_delete_L in Hin. apply elem_of_difference in Hin as [_ Hin].
    destruct Hin. by apply elem_of_singleton.
Qed.

(** X7. In every class body the attribute names are pairwise distinct and
    none is [execute]; the class namespace keeps them in order, and looking
    a name up among the inputs finds exactly the declared field. *)
Theorem class_attributes_distinct (n : node_class) :
  NoDup ("execute" :: (class_body n).*1)
  ∧ ∃ ns,
      class_namespace models n = Some ns
      ∧ ns.*1 = (class_body n).*1
      ∧ ∀ (x : string) (f : field),
          field_named x (inputs ns) = Some f ↔ (x, f) ∈ inputs ns.
Proof.
  split.
  - apply (bool_decide_unpack _). by destruct n; vm_compute.
  - assert (∃ ns, class_namespace models n = Some ns
                  ∧ ns.*1 = (class_body n).*1
                  ∧ (inputs ns).*1 = execute_params n) as (ns & Hns & Hn & Hi).
    { destruct n; eexists; (split; [vm_compute; reflexivity |]);
        split; reflexivity. }
    exists ns. split; [done |]. split; [done |].
    intros x f. apply field_named_elem_of. rewrite Hi.
    apply (bool_decide_unpack _). by destruct n; vm_compute.
Qed.

(** X10. Every node class is registered, under exactly one display
    name. *)
Theorem every_class_registered_once (n : node_class) :
  ∃ k : string,
    NODE_CLASS_MAPPINGS !! k = Some n
    ∧ ∀ k' : string, NODE_CLASS_MAPPINGS !! k' = Some n → k' = k.
Proof.
  destruct n;
    [exists "Describe Image" | exists "Combine Texts"
     | exists "Transform Text" | exists "Classify Image"];
    (split; [by vm_compute |]);
    intros k' H%NODE_CLASS_MAPPINGS_lookup_inv;
    rewrite !elem_of_cons, elem_of_nil in H;
    destruct H as [H|[H|[H|[H|[]]]]]; by simplify_eq.
Qed.

End Declarations.

(** * Further properties of [execute] *)

Section Arity.
Context {tensor exn world : Type}.
Variable models : list string.
Variable ai : @call tensor → @pystate world → (exn + string) * @pystate world.

(** X11. Whenever [execute] returns, the tuple it returns has as many
    elements as its class declares outputs. *)
Theorem returned_tuple_matches_outputs
    (i : @invocation tensor) (σ : @pystate world) (r : list string) :
  result (execute ai i σ) = inr r →
  ∃ ns, class_namespace models (node_of i) = Some ns
        ∧ length r = length (outputs ns).
Proof.
  intros Hr. destruct (execute_one_call ai i) as [c Hc].
  rewrite Hc in Hr. simpl in Hr.
  destruct (ai c σ).1 as [e|s]; simpl in Hr; [discriminate |].
  injection Hr as <-.
  destruct i; eexists; (split; [vm_compute; reflexivity |]); reflexivity.
Qed.

End Arity.

(** ** The further conditional properties at concrete inputs *)

(** The prefixes [X] and [Y] hold no space, the texts no line feed. *)
Lemma CombineTexts_prompt_injective_witness :
  has_char LF "Merge." = false
  ∧ has_char " " "X" = false
  ∧ has_char LF "a" = false
  ∧ has_char " " "Y" = false
  ∧ ("Merge." = "Merge." ∧ "X" = "X" ∧ "a" = "a" ∧ "Y" = "Y" ∧ "b" = "b").
Proof.
  assert (has_char LF "Merge." = false) as Hp by reflexivity.
  assert (has_char " " "X" = false) as Hx by reflexivity.
  assert (has_char LF "a" = false) as Ht by reflexivity.
  assert (has_char " " "Y" = false) as Hy by reflexivity.
  exact (conj Hp (conj Hx (conj Ht (conj Hy
    (CombineTexts_prompt_injective "Merge." "X" "a" "Y" "b"
       "Merge." "X" "a" "Y" "b" Hp Hp Hx Hx Ht Ht Hy Hy eq_refl))))).
Defined.

(** Two one-line prompts. *)
Lemma TransformText_prompt_injective_witness :
  has_char LF "Translate to French." = false
  ∧ ("Translate to French." = "Translate to French." ∧ "hello" = "hello").
Proof.
  assert (has_char LF "Translate to French." = false) as Hp by reflexivity.
  exact (conj Hp
    (proj2 (TransformText_prompt_injective "Translate to French." "hello"
              "Translate to French." "hello") Hp Hp eq_refl)).
Defined.

(** [DescribeImage] with a valid key returns one string for its one
    declared output. *)
Lemma returned_tuple_matches_outputs_witness :
  result (execute Demo.ai Demo.describe Demo.st0)
  = inr ["reply to: Describe this image in detail."]
  ∧ ∃ ns, class_namespace Demo.models DescribeImage = Some ns
          ∧ length ["reply to: Describe this image in detail."]
            = length (outputs ns).
Proof.
  assert (result (execute Demo.ai Demo.describe Demo.st0)
          = inr ["reply to: Describe this image in detail."]) as Hr
    by reflexivity.
  exact (conj Hr
    (returned_tuple_matches_outputs Demo.models Demo.ai Demo.describe
       Demo.st0 ["reply to: Describe this image in detail."] Hr)).
Defined.
